(** * The SINDy example notebook: Lorenz system and trajectory generation

    The notebook [pysindy-example.ipynb] defines two functions of its own,
    [lorenz] (the right-hand side of the Lorenz system) and
    [integrate_lorenz] (a trajectory sampled on a uniform time grid), and
    then hands the trajectory to the [pysindy] package.  This file embeds
    the two functions, the cells that prepare the test grid, the noisy
    data, the colour limits and the subplot codes, and the thresholded
    least-squares iteration that the specification describes for the
    fitting engine.

    Layout: definitions first (numbers, the notebook's functions, reference
    stand-ins for the numerical collaborators, the optimizer, the vector
    field's quantities, the plotting and noise cells), theorems after. *)

From Stdlib Require Import List ZArith QArith Qabs Qround Bool Lia Floats Uint63.
From Stdlib Require String Ascii DecimalString DecimalNat DecimalFacts.
From Stdlib Require Import Lqa.
Import ListNotations.

(* ================================================================= *)
(** ** Numbers *)

(** The notebook's arithmetic is duck-typed: the same expressions run on
    Python floats, NumPy [float64] scalars and (in exact reasoning about the
    equations) rationals.  [Arith] is the interface those expressions need. *)
Module Numbers.

Class Arith (num : Type) : Type := {
  of_int : Z -> num;            (* an integer literal, e.g. [10] *)
  add : num -> num -> num;      (* [a + b] *)
  sub : num -> num -> num;      (* [a - b] *)
  mul : num -> num -> num;      (* [a * b] *)
  div : num -> num -> num       (* true division [a / b] *)
}.

(** Exact rationals. *)
#[export] Instance Arith_Q : Arith Q := {|
  of_int := inject_Z;
  add := Qplus;
  sub := Qminus;
  mul := Qmult;
  div := Qdiv
|}.

(** An integer literal as a binary64 value (exact for the small literals the
    notebook uses; the conversion goes through a 63-bit integer). *)
Definition float_of_Z (z : Z) : float :=
  match z with
  | Z0 => PrimFloat.zero
  | Zpos _ => PrimFloat.of_uint63 (Uint63.of_Z z)
  | Zneg p => PrimFloat.opp (PrimFloat.of_uint63 (Uint63.of_Z (Zpos p)))
  end.

(** IEEE 754 binary64, the arithmetic of Python's [float] and of the
    [float64] arrays that [odeint] passes to the right-hand side.  (Python
    raises on a float division by zero where binary64 gives an infinity or a
    NaN; the notebook divides only the literals [8/3].) *)
#[export] Instance Arith_float : Arith float := {|
  of_int := float_of_Z;
  add := PrimFloat.add;
  sub := PrimFloat.sub;
  mul := PrimFloat.mul;
  div := PrimFloat.div
|}.

End Numbers.

(* ================================================================= *)
(** ** The notebook's functions *)

Module Notebook.
Import Numbers.

(** A Python call either returns a value or raises; the only exception the
    two functions can raise themselves is the [IndexError] of a subscript. *)
Notation "v <- e ;; k" :=
  (match e with Some v => k | None => None end)
  (at level 61, e at next level, right associativity).

Section Functions.
Context {num : Type} {A : Arith num}.

(** [x[i]] on a sequence: [None] stands for [IndexError]. *)
Definition getitem (x : list num) (i : nat) : option num := nth_error x i.

(** A right-hand side [f(x, t)] as [odeint] calls it. *)
Definition rhs : Type := list num -> num -> option (list num).

(** [[
    def lorenz(x, t, sigma=10, rho=28, beta=8/3):
        return [
            sigma * (x[1] - x[0]),
            x[0] * (rho - x[2]) - x[1],
            x[0] * x[1] - beta * x[2]
        ]
    ]]
    The three list elements are evaluated in order, each with its own
    subscripts. *)
Definition lorenz (x : list num) (t : num) (sigma rho beta : num)
  : option (list num) :=
  dx <- (x_1 <- getitem x 1 ;; x_0 <- getitem x 0 ;;
         Some (mul sigma (sub x_1 x_0))) ;;
  dy <- (x_0 <- getitem x 0 ;; x_2 <- getitem x 2 ;; x_1 <- getitem x 1 ;;
         Some (sub (mul x_0 (sub rho x_2)) x_1)) ;;
  dz <- (x_0 <- getitem x 0 ;; x_1 <- getitem x 1 ;; x_2 <- getitem x 2 ;;
         Some (sub (mul x_0 x_1) (mul beta x_2))) ;;
  Some [dx; dy; dz].

(** The default values of the keyword parameters: [sigma=10], [rho=28],
    [beta=8/3] (a true division of two integer literals). *)
Definition sigma : num := of_int 10.
Definition rho : num := of_int 28.
Definition beta : num := div (of_int 8) (of_int 3).

(** The call [lorenz(x, t)], every keyword parameter at its default. *)
Definition lorenz_xt (x : list num) (t : num) : option (list num) :=
  lorenz x t sigma rho beta.

(** The collaborators [integrate_lorenz] imports: [np.arange(start, stop,
    step)] and [scipy.integrate.odeint(func, y0, t)].  Neither is code of
    the notebook; both are parameters here. *)
Variable arange : num -> num -> num -> list num.
Variable odeint : rhs -> list num -> list num -> option (list (list num)).

(** [[
    def integrate_lorenz(lorenz_function=None, dt=0.002, tmax=10, x0=[-8, 8, 27]):
        if lorenz_function is None:
            lorenz_function = lambda x, t: lorenz(x, t)
        t = np.arange(0, tmax, dt)
        X = odeint(lorenz_function, x0, t)
        return X
    ]] *)
Definition integrate_lorenz (lorenz_function : option rhs)
    (dt tmax : num) (x0 : list num) : option (list (list num)) :=
  let lorenz_function :=
    match lorenz_function with
    | None => fun x t => lorenz_xt x t
    | Some f => f
    end in
  let t := arange (of_int 0) tmax dt in
  let X := odeint lorenz_function x0 t in
  X.

(** What SciPy documents of [odeint]'s result: an array of shape
    [(len(t), len(y0))], with the initial value [y0] in the first row. *)
Definition odeint_contract : Prop :=
  forall (f : rhs) (y0 ts : list num) (X : list (list num)),
    odeint f y0 ts = Some X ->
    length X = length ts
    /\ Forall (fun row => length row = length y0) X
    /\ (ts <> [] -> hd_error X = Some y0).

(** Default values of the other keyword parameters. *)
Definition dt_default : num := div (of_int 2) (of_int 1000).   (* 0.002 *)
Definition tmax_default : num := of_int 10.
Definition x0_default : list num := [of_int (-8); of_int 8; of_int 27].

(** The training trajectory: [dt = 0.002; X = integrate_lorenz(dt=dt)]. *)
Definition X : option (list (list num)) :=
  integrate_lorenz None dt_default tmax_default x0_default.

(** The test trajectory: [x0_test = np.array([8, 7, 15])], [tmax_test = 15],
    [X_test = integrate_lorenz(x0=x0_test, tmax=tmax_test)]. *)
Definition x0_test : list num := [of_int 8; of_int 7; of_int 15].
Definition tmax_test : num := of_int 15.
Definition X_test : option (list (list num)) :=
  integrate_lorenz None dt_default tmax_test x0_test.

End Functions.

Arguments rhs num : clear implicits.

End Notebook.

(* ================================================================= *)
(** ** Reference stand-ins for the numerical collaborators *)

(** Executable stand-ins for [np.arange] and [odeint], used to run
    [integrate_lorenz] on concrete inputs.  They are not the libraries' code:
    [arange_Q] follows NumPy's documented rule in exact arithmetic, and
    [euler_odeint] is the explicit Euler scheme, which has the same calling
    convention and output shape as [odeint]. *)
Module Reference.
Import Numbers Notebook.

(** [np.arange(start, stop, step)]: [ceil((stop - start) / step)] values
    [start + i * step]. *)
Definition arange_Q (start stop step : Q) : list Q :=
  let n := Z.to_nat (Qceiling ((stop - start) / step)) in
  map (fun i => Qred (start + inject_Z (Z.of_nat i) * step)) (seq 0 n).

(** The smallest integer that is not below a binary64 value (0 for a value
    that is not positive or not finite). *)
Definition float_ceil (q : float) : Z :=
  match Prim2SF q with
  | S754_finite false m e =>
      if (0 <=? e)%Z then (Zpos m * 2 ^ e)%Z
      else ((Zpos m + 2 ^ (- e) - 1) / 2 ^ (- e))%Z
  | _ => 0%Z
  end.

(** [np.arange] on binary64 values, by the same rule as [arange_Q]. *)
Definition arange_float64 (start stop step : float) : list float :=
  let n := Z.to_nat (float_ceil (PrimFloat.div (PrimFloat.sub stop start) step)) in
  map (fun i => PrimFloat.add start
                  (PrimFloat.mul (float_of_Z (Z.of_nat i)) step))
      (seq 0 n).

Section Euler.
Context {num : Type} {A : Arith num}.

(** [y + h * f], componentwise. *)
Definition axpy (h : num) (y f : list num) : list num :=
  map (fun p => add (fst p) (mul h (snd p))) (combine y f).

(** One row per remaining time point; a right-hand side that raises, or
    that returns a vector of the wrong length, makes the integration fail. *)
Fixpoint euler_steps (f : rhs num) (y : list num) (t : num) (ts : list num)
  : option (list (list num)) :=
  match ts with
  | [] => Some []
  | t' :: ts' =>
      fy <- f y t ;;
      if Nat.eqb (length fy) (length y) then
        let y' := axpy (sub t' t) y fy in
        rest <- euler_steps f y' t' ts' ;;
        Some (y' :: rest)
      else None
  end.

(** The first row is the initial state at [ts[0]]. *)
Definition euler_odeint (f : rhs num) (y0 : list num) (ts : list num)
  : option (list (list num)) :=
  match ts with
  | [] => Some []
  | t0 :: ts' => rest <- euler_steps f y0 t0 ts' ;; Some (y0 :: rest)
  end.
End Euler.

End Reference.

(* ================================================================= *)
(** ** Vectors and matrices of rationals *)

Module Linear.

Definition vector : Type := list Q.
Definition matrix : Type := list (list Q).

(** The inner product of two vectors. *)
Definition dot (u v : vector) : Q :=
  fold_right Qplus 0 (map (fun p => fst p * snd p) (combine u v)).

End Linear.

(* ================================================================= *)
(** ** The sparse optimizer (sequential thresholded least squares) *)

(** The notebook only calls [model.fit]; the optimizer behind it belongs to
    the [pysindy] package and is not among the repository's files.  The
    definitions of this module are written from the specification's
    description of [solve].

    Matrices are stored by columns: [Theta] is the list of the [l] feature
    columns, [Xdot] the list of the [m] target columns, and the coefficient
    matrix the list of its [m] columns, each with one entry per feature. *)
Module SparseOptimizer.
Import Linear.

(** Modelled from the spec: the optimizer's only failure, a restricted solve
    that yields no finite coefficients. *)
Inductive error : Type := SingularSystem.

(** A value, or the failure that stopped the solve. *)
Inductive result (T : Type) : Type :=
  | Ok (v : T)
  | Err (e : error).
Arguments Ok {T} v.
Arguments Err {T} e.

(** The results of the columns, in order; the first failure wins. *)
Fixpoint collect {T : Type} (rs : list (result T)) : result (list T) :=
  match rs with
  | [] => Ok []
  | Ok v :: rs' =>
      match collect rs' with
      | Ok vs => Ok (v :: vs)
      | Err e => Err e
      end
  | Err e :: _ => Err e
  end.

(** Modelled from the spec: the threshold test of step 2, the strict
    comparison [abs(coef) < threshold]. *)
Definition below (threshold c : Q) : bool :=
  negb (Qle_bool threshold (Qabs c)).

(** Modelled from the spec: the feature columns of the active set (step 1,
    the problem restricted to the currently active columns). *)
Fixpoint restrict (active : list bool) (Theta : matrix) : matrix :=
  match active, Theta with
  | true :: active', col :: Theta' => col :: restrict active' Theta'
  | false :: active', _ :: Theta' => restrict active' Theta'
  | _, _ => []
  end.

(** Modelled from the spec: the coefficients of the restricted problem put
    back at their features' positions, every inactive feature at zero. *)
Fixpoint scatter (active : list bool) (c : vector) : vector :=
  match active with
  | [] => []
  | true :: active' =>
      match c with
      | ck :: c' => ck :: scatter active' c'
      | [] => 0 :: scatter active' []
      end
  | false :: active' => 0 :: scatter active' c
  end.

(** Modelled from the spec: step 2, every coefficient below the threshold
    becomes exactly zero. *)
Definition zero_small (threshold : Q) (coef : vector) : vector :=
  map (fun c => if below threshold c then 0 else c) coef.

(** Modelled from the spec: step 3, the features whose coefficient was
    zeroed leave the active set. *)
Fixpoint prune (threshold : Q) (active : list bool) (coef : vector)
  : list bool :=
  match active, coef with
  | a :: active', c :: coef' =>
      (a && negb (below threshold c)) :: prune threshold active' coef'
  | _, _ => []
  end.

(** Modelled from the spec: step 4, the active-set pattern is unchanged from
    the previous round. *)
Fixpoint same_pattern (a b : list bool) : bool :=
  match a, b with
  | [], [] => true
  | x :: a', y :: b' => Bool.eqb x y && same_pattern a' b'
  | _, _ => false
  end.

(** Modelled from the spec: thresholding has eliminated every feature. *)
Definition none_active (active : list bool) : bool :=
  forallb negb active.

Section Solve.
(** The linear-algebra backend, an external collaborator of the optimizer:
    [ridge_solve alpha M y] minimises [||M xi - y||^2 + alpha ||xi||^2]
    over the columns [M]; [None] when the solve yields no finite
    coefficients. *)
Variable ridge_solve : Q -> matrix -> vector -> option vector.

(** Modelled from the spec: the iteration of [solve] for one target column
    [y], with the active set threaded through.  A round solves on the active
    columns (step 1), zeroes the small coefficients (step 2) and prunes the
    active set (step 3); then the stopping rule of step 4 is tested.  The
    iteration stops at a fixed point of the active set, at a fully
    eliminated column (all coefficients zero, no failure), or when the
    rounds are used up: [budget] counts the rounds still allowed after this
    one. *)
Fixpoint iterate (budget : nat) (Theta : matrix) (y : vector)
    (threshold ridge_alpha : Q) (active : list bool) : result vector :=
  match ridge_solve ridge_alpha (restrict active Theta) y with
  | None => Err SingularSystem
  | Some c =>
      let full := scatter active c in
      let coef := zero_small threshold full in
      let active' := prune threshold active full in
      if same_pattern active' active then Ok coef
      else if none_active active' then Ok coef
      else
        match budget with
        | O => Ok coef
        | S budget' => iterate budget' Theta y threshold ridge_alpha active'
        end
  end.

(** Modelled from the spec: one target column.  Every feature starts
    active; the first round is round 1, and [max_iter] is reached when
    [max_iter] rounds have been run. *)
Definition solve_column (Theta : matrix) (y : vector)
    (threshold : Q) (max_iter : nat) (ridge_alpha : Q) : result vector :=
  iterate (Nat.pred max_iter) Theta y threshold ridge_alpha
    (map (fun _ => true) Theta).

(** Modelled from the spec: [solve(Theta, Xdot, threshold, max_iter,
    ridge_alpha)], each target column of [Xdot] solved independently. *)
Definition solve (Theta Xdot : matrix) (threshold : Q) (max_iter : nat)
    (ridge_alpha : Q) : result matrix :=
  collect
    (map (fun y => solve_column Theta y threshold max_iter ridge_alpha) Xdot).

(** Modelled from the spec: the direct least-squares solve of
    [Theta xi = Xdot], one unregularized and unthresholded backend solve
    per target column on all the feature columns. *)
Definition direct_least_squares (Theta Xdot : matrix) : result matrix :=
  collect
    (map (fun y =>
            match ridge_solve 0 Theta y with
            | Some c => Ok c
            | None => Err SingularSystem
            end) Xdot).
End Solve.

(** *** A reference backend in exact arithmetic

    The normal equations [(Theta^T Theta + alpha I) xi = Theta^T y], solved
    by Gauss elimination over the rationals. *)

(** Row [i] of the augmented system, the right-hand side last. *)
Definition normal_row (alpha : Q) (Theta : matrix) (y : vector)
    (i : nat) (ci : vector) : list Q :=
  map (fun jc => if Nat.eqb i (fst jc) then dot ci (snd jc) + alpha
                 else dot ci (snd jc))
      (combine (seq 0 (length Theta)) Theta)
  ++ [dot ci y].

Definition normal_system (alpha : Q) (Theta : matrix) (y : vector)
  : list (list Q) :=
  map (fun ic => normal_row alpha Theta y (fst ic) (snd ic))
      (combine (seq 0 (length Theta)) Theta).

(** The first row whose leading entry is not zero, and the other rows. *)
Fixpoint find_pivot (rows : list (list Q))
  : option (list Q * list (list Q)) :=
  match rows with
  | [] => None
  | r :: rs =>
      match r with
      | a :: _ =>
          if Qeq_bool a 0 then
            match find_pivot rs with
            | Some (p, others) => Some (p, r :: others)
            | None => None
            end
          else Some (r, rs)
      | [] => None
      end
  end.

(** [r - b * p], componentwise. *)
Definition eliminate (b : Q) (p r : list Q) : list Q :=
  map (fun q => Qred (fst q - b * snd q)) (combine r p).

(** [k] equations in [k] unknowns, each row with [k + 1] entries. *)
Fixpoint gauss (k : nat) (rows : list (list Q)) : option vector :=
  match k with
  | O => Some []
  | S k' =>
      match find_pivot rows with
      | Some (a :: p, others) =>
          let p' := map (fun q => Qred (q / a)) p in
          let reduced := map (fun r => eliminate (hd 0 r) p' (tl r)) others in
          match gauss k' reduced with
          | Some xs => Some (Qred (last p' 0 - dot (removelast p') xs) :: xs)
          | None => None
          end
      | _ => None
      end
  end.

Definition exact_ridge (alpha : Q) (M : matrix) (y : vector) : option vector :=
  gauss (length M) (normal_system alpha M y).

(** *** A small regression problem

    Three targets on the features [1], [x], [x^2] sampled at
    [x = 0, 1, 2, 3]. *)
Definition Theta_example : matrix := [[1; 1; 1; 1]; [0; 1; 2; 3]; [0; 1; 4; 9]].
Definition Xdot_example : matrix :=
  [[1; 3; 5; 7]; [0; 1; 4; 9]; [1 # 10; 2; 4; 5]].

End SparseOptimizer.

(* ================================================================= *)
(** ** The Lorenz equations as the recovery scenario states them *)

(** The degree-2 polynomial library on a 3-dimensional state, in the order
    constant, linear terms, products of two (combinations with repetition),
    and the coefficients of the Lorenz system with [sigma = 10], [rho = 28],
    [beta = 8/3] on those features: [-10, 10] for the first equation,
    [28, -1, -1] for the second, [-8/3, 1] for the third, zero elsewhere. *)
Module GroundTruth.

Definition poly2_features (x y z : Q) : list Q :=
  [1; x; y; z; x * x; x * y; x * z; y * y; y * z; z * z].

Definition lorenz_coefficients : list (list Q) :=
  [ [0; -10; 10; 0;        0; 0; 0;  0; 0; 0];
    [0; 28;  -1; 0;        0; 0; -1; 0; 0; 0];
    [0; 0;   0;  -(8 # 3); 0; 1; 0;  0; 0; 0] ].

(** [Theta(x) . Xi], one entry per state dimension. *)
Definition model_rhs (x y z : Q) : list Q :=
  map (Linear.dot (poly2_features x y z)) lorenz_coefficients.

End GroundTruth.

(* ================================================================= *)
(** ** The Lorenz vector field in exact arithmetic *)

(** Quantities used to state what the vector field computed by [lorenz]
    does on rational states. *)
Module Dynamics.

(** The reflection [(x, y, z) -> (-x, -y, z)] through the [z] axis. *)
Definition reflect (v : list Q) : list Q :=
  match v with
  | [a; b; c] => [- a; - b; c]
  | _ => v
  end.

(** The gradient of [V = rho x^2 + sigma y^2 + sigma (z - 2 rho)^2]. *)
Definition lyapunov_gradient (sigma rho : Q) (x y z : Q) : list Q :=
  [2 * rho * x; 2 * sigma * y; 2 * sigma * (z - 2 * rho)].

(** The state is strictly outside the ellipsoid
    [rho x^2 + y^2 + beta (z - rho)^2 <= beta rho^2]. *)
Definition outside_ellipsoid (rho beta : Q) (x y z : Q) : Prop :=
  beta * (rho * rho) < rho * (x * x) + y * y + beta * ((z - rho) * (z - rho)).

End Dynamics.

(* ================================================================= *)
(** ** The notebook's plotting and noise cells *)

(** The cells after the fit: the time grid of the test trajectory, the
    noisy training data, the colour limits of the coefficient images and the
    integer codes of the 3-D subplots.  Arrays are lists of rows of
    rationals; NumPy's [hstack], [abs] and [max] and Python's [str] and
    [int] follow their documented behaviour on these values. *)
Module Cells.
Import Numbers Notebook.

Section Grids.
Context {num : Type} {A : Arith num}.
Variable arange : num -> num -> num -> list num.

(** [dt = 0.002], the global of the cell that builds [X]. *)
Definition dt : num := div (of_int 2) (of_int 1000).

(** [t_test = np.arange(0, tmax_test, step=dt)]. *)
Definition t_test : list num := arange (of_int 0) tmax_test dt.
End Grids.

(** A 2-D array, by rows. *)
Definition array2 : Type := list (list Q).

(** [n * R] for a scalar [n]. *)
Definition scale (n : Q) (R : array2) : array2 := map (map (Qmult n)) R.

(** [X + N] for two arrays of one shape, entry by entry. *)
Definition add_arrays (X N : array2) : array2 :=
  map (fun rows => map (fun p => fst p + snd p) (combine (fst rows) (snd rows)))
      (combine X N).

(** Two arrays of one shape: as many rows, and row by row as many entries
    (what [randn(X.shape[0], X.shape[1])] returns next to [X]). *)
Definition same_shape (X N : array2) : Prop :=
  Forall2 (fun row row' => length row = length row') X N.

(** [X + n*np.random.randn(X.shape[0], X.shape[1])], the training data of
    noise level [n]; [R] is the array the random draw returned. *)
Definition noisy (X : array2) (n : Q) (R : array2) : array2 :=
  add_arrays X (scale n R).

(** [np.hstack(arrays)] on 2-D arrays: the rows of the arrays joined side by
    side.  [None] stands for the [ValueError] of an empty list or of arrays
    whose row counts differ. *)
Fixpoint hstack (arrays : list array2) : option array2 :=
  match arrays with
  | [] => None
  | [a] => Some a
  | a :: rest =>
      r <- hstack rest ;;
      if Nat.eqb (length a) (length r)
      then Some (map (fun rows => fst rows ++ snd rows) (combine a r))
      else None
  end.

(** The larger of two rationals. *)
Definition Qmax2 (a b : Q) : Q := if Qle_bool a b then b else a.

(** [np.max(a)] over every entry; [None] stands for the [ValueError] of a
    zero-size array. *)
Definition amax (a : array2) : option Q :=
  match concat a with
  | [] => None
  | e :: es => Some (fold_left Qmax2 es e)
  end.

(** [clim = np.max(np.abs(np.hstack(coefficients))) * np.r_[-1, 1]]. *)
Definition clim (coefficients : list array2) : option (list Q) :=
  h <- hstack coefficients ;;
  m <- amax (map (map Qabs) h) ;;
  Some (map (fun s => m * s) [-1; 1]).

(** Strings, for the rest of the module. *)
Import String.

(** [str(n)] (and [f"{n}"]) of a non-negative integer: its decimal digits. *)
Definition py_str (n : nat) : String.string :=
  DecimalString.NilEmpty.string_of_uint (Nat.to_uint n).

(** [int(s)] on a string of decimal digits; [None] stands for the
    [ValueError] of an empty string or of a character that is no digit. *)
Definition py_int (s : String.string) : option nat :=
  option_map Nat.of_uint (DecimalString.NilZero.uint_of_string s).

(** [int(f"1{len(noise)+1}{k}")], the code passed to [fig.add_subplot]:
    [k] is [1] for the true trajectory and [i+2] for the simulation of
    noise level [i]. *)
Definition subplot_code (len_noise k : nat) : option nat :=
  py_int (String.append "1"%string
            (String.append (py_str (len_noise + 1)) (py_str k))).

(** The codes of one figure: the first subplot, then one per noise level,
    [i] over [range(len(noise))]. *)
Definition subplot_codes (len_noise : nat) : list (option nat) :=
  subplot_code len_noise 1
  :: map (fun i => subplot_code len_noise (i + 2)) (seq 0 len_noise).

(** The digits of [d] followed by the digits of [d']. *)
Fixpoint uapp (d d' : Decimal.uint) : Decimal.uint :=
  match d with
  | Decimal.Nil => d'
  | Decimal.D0 u => Decimal.D0 (uapp u d')
  | Decimal.D1 u => Decimal.D1 (uapp u d')
  | Decimal.D2 u => Decimal.D2 (uapp u d')
  | Decimal.D3 u => Decimal.D3 (uapp u d')
  | Decimal.D4 u => Decimal.D4 (uapp u d')
  | Decimal.D5 u => Decimal.D5 (uapp u d')
  | Decimal.D6 u => Decimal.D6 (uapp u d')
  | Decimal.D7 u => Decimal.D7 (uapp u d')
  | Decimal.D8 u => Decimal.D8 (uapp u d')
  | Decimal.D9 u => Decimal.D9 (uapp u d')
  end.

(** The number of decimal digits of [n]. *)
Definition digits (n : nat) : nat := DecimalNat.Unsigned.usize (Nat.to_uint n).

End Cells.

(* ================================================================= *)
(** * Theorems *)

(** ** [lorenz] *)

Module LorenzFacts.
Import Numbers Notebook.

Section Generic.
Context {num : Type} {A : Arith num}.

(** [x[i]] of a sequence that is long enough. *)
Local Notation "x .[ i ]" := (nth i x (of_int 0))
  (at level 1, left associativity, format "x .[ i ]").

Lemma getitem_in_range (x : list num) (i : nat) :
  (i < length x)%nat -> getitem x i = Some x.[i].
Proof.
  unfold getitem. revert i.
  induction x as [|a x IH]; intros [|i] Hi; simpl in *; try lia.
  - reflexivity.
  - apply IH. lia.
Qed.

Lemma getitem_out_of_range (x : list num) (i : nat) :
  (length x <= i)%nat -> getitem x i = None.
Proof. intros Hi. unfold getitem. now apply nth_error_None. Qed.

(** The value of [lorenz] on a state with at least three entries. *)
Lemma lorenz_value (x : list num) (t sigma' rho' beta' : num) :
  (3 <= length x)%nat ->
  lorenz x t sigma' rho' beta' =
    Some [ mul sigma' (sub x.[1] x.[0]);
           sub (mul x.[0] (sub rho' x.[2])) x.[1];
           sub (mul x.[0] x.[1]) (mul beta' x.[2]) ].
Proof.
  intros Hlen. unfold lorenz.
  rewrite !getitem_in_range by lia.
  reflexivity.
Qed.

(** C9. For every 3-element state [x] and any [t], [lorenz] returns
    exactly the list
    [[sigma*(x[1]-x[0]), x[0]*(rho-x[2])-x[1], x[0]*x[1]-beta*x[2]]],
    whatever the parameters, and the call [lorenz(x, t)] uses the defaults
    [sigma = 10], [rho = 28], [beta = 8/3]. *)
Theorem lorenz_returns_lorenz_rhs (x : list num) (t : num) :
  length x = 3%nat ->
  (forall sigma' rho' beta' : num,
      lorenz x t sigma' rho' beta' =
        Some [ mul sigma' (sub x.[1] x.[0]);
               sub (mul x.[0] (sub rho' x.[2])) x.[1];
               sub (mul x.[0] x.[1]) (mul beta' x.[2]) ])
  /\ lorenz_xt x t =
       Some [ mul (of_int 10) (sub x.[1] x.[0]);
              sub (mul x.[0] (sub (of_int 28) x.[2])) x.[1];
              sub (mul x.[0] x.[1])
                  (mul (div (of_int 8) (of_int 3)) x.[2]) ].
Proof.
  intros Hlen. split.
  - intros sigma' rho' beta'. apply lorenz_value. lia.
  - unfold lorenz_xt, sigma, rho, beta. apply lorenz_value. lia.
Qed.

(** A state with fewer than three entries raises [IndexError]. *)
Lemma lorenz_index_error (x : list num) (t sigma' rho' beta' : num) :
  (length x < 3)%nat <-> lorenz x t sigma' rho' beta' = None.
Proof.
  split.
  - intros Hlen. unfold lorenz.
    destruct (Nat.le_gt_cases (length x) 1) as [H1 | H1].
    + now rewrite (getitem_out_of_range x 1%nat H1).
    + rewrite (getitem_in_range x 1%nat), (getitem_in_range x 0%nat) by lia.
      now rewrite (getitem_out_of_range x 2%nat) by lia.
  - intros Hnone.
    destruct (Nat.le_gt_cases 3 (length x)) as [H3 | H3]; [|exact H3].
    rewrite lorenz_value in Hnone by exact H3. discriminate.
Qed.

(** The system is autonomous: [t] is not used. *)
Lemma lorenz_ignores_t (x : list num) (t t' sigma' rho' beta' : num) :
  lorenz x t sigma' rho' beta' = lorenz x t' sigma' rho' beta'.
Proof. reflexivity. Qed.

(** The result has one entry per state dimension. *)
Lemma lorenz_length (x dx : list num) (t sigma' rho' beta' : num) :
  lorenz x t sigma' rho' beta' = Some dx -> length dx = 3%nat.
Proof.
  intros H.
  destruct (Nat.le_gt_cases 3 (length x)) as [H3 | H3].
  - rewrite lorenz_value in H by exact H3. now inversion H.
  - apply (lorenz_index_error x t sigma' rho' beta') in H3. congruence.
Qed.
End Generic.

(** The theorem at the notebook's initial state, in exact arithmetic. *)
Lemma lorenz_returns_lorenz_rhs_witness :
  length (x0_default (num:=Q)) = 3%nat
  /\ lorenz_xt (x0_default (num:=Q)) 0 =
       Some [ 10 * (8 - -8); -8 * (28 - 27) - 8; -8 * 8 - (8 / 3) * 27 ]%Q.
Proof.
  split; [reflexivity|].
  exact (proj2 (lorenz_returns_lorenz_rhs (x0_default (num:=Q)) 0 eq_refl)).
Defined.

(** On binary64 values, as [odeint] calls it at the initial state. *)
Example lorenz_float64_at_x0 :
  lorenz_xt (x0_default (num:=float)) PrimFloat.zero =
    Some [160%float; (-16)%float; (-136)%float].
Proof. vm_compute. reflexivity. Qed.

(** The default [beta] is the binary64 quotient of 8 by 3, not the rational. *)
Example beta_float64 : beta (num:=float) = 0x1.5555555555555p+1%float.
Proof. vm_compute. reflexivity. Qed.

(** X2. In exact arithmetic [lorenz(x, t)] is the model [Theta(x) . Xi] of the
    degree-2 library with the Lorenz coefficients: the ground truth of the
    recovery scenario. *)
Lemma lorenz_is_ground_truth (x y z t : Q) :
  exists dx, lorenz_xt [x; y; z] t = Some dx
             /\ Forall2 Qeq dx (GroundTruth.model_rhs x y z).
Proof.
  eexists. split; [reflexivity|].
  unfold GroundTruth.model_rhs, GroundTruth.lorenz_coefficients,
    GroundTruth.poly2_features, Linear.dot.
  cbn [map combine fold_right fst snd getitem nth_error].
  unfold sigma, rho, beta. cbn [of_int sub mul div Arith_Q].
  repeat constructor; field.
Qed.

End LorenzFacts.

(** ** [integrate_lorenz] *)

Module IntegrateFacts.
Import Numbers Notebook Reference.

Section Generic.
Context {num : Type} {A : Arith num}.
Variable arange : num -> num -> num -> list num.
Variable odeint : rhs num -> list num -> list num -> option (list (list num)).
Hypothesis odeint_shape : odeint_contract odeint.

(** The right-hand side that is integrated. *)
Lemma integrate_lorenz_unfold (f : option (rhs num)) (dt tmax : num)
    (x0 : list num) :
  integrate_lorenz arange odeint f dt tmax x0 =
    odeint (match f with None => lorenz_xt | Some g => g end)
           x0 (arange (of_int 0) tmax dt).
Proof. destruct f; reflexivity. Qed.

(** C10, as amended.  [integrate_lorenz(lorenz_function, dt, tmax, x0)]
    returns what [odeint] computes on the time points
    [np.arange(0, tmax, dt)], and with [lorenz_function = None] the
    right-hand side is [lorenz] with [sigma = 10], [rho = 28],
    [beta = 8/3].  Whenever it returns, the trajectory has one row per time
    point and as many columns as [x0] has entries (three for a
    three-dimensional [x0]); its first row is [x0] when the grid has a
    point, and it has no row when the grid is empty. *)
Theorem integrate_lorenz_samples_solution
    (f : option (rhs num)) (dt tmax : num) (x0 : list num) :
  let t := arange (of_int 0) tmax dt in
  let default_rhs : rhs num :=
    fun x s => lorenz x s (of_int 10) (of_int 28) (div (of_int 8) (of_int 3)) in
  integrate_lorenz arange odeint f dt tmax x0 =
    odeint (match f with None => default_rhs | Some g => g end) x0 t
  /\ forall X : list (list num),
       integrate_lorenz arange odeint f dt tmax x0 = Some X ->
       length X = length t
       /\ Forall (fun row => length row = length x0) X
       /\ (length x0 = 3%nat -> Forall (fun row => length row = 3%nat) X)
       /\ (t <> [] -> hd_error X = Some x0)
       /\ (t = [] -> X = []).
Proof.
  intros t default_rhs. split.
  - rewrite integrate_lorenz_unfold. destruct f; reflexivity.
  - intros X HX. rewrite integrate_lorenz_unfold in HX.
    destruct (odeint_shape _ _ _ _ HX) as (Hrows & Hcols & Hfirst).
    fold t in Hrows, Hfirst.
    split; [exact Hrows|]. split; [exact Hcols|].
    split; [intros H3; rewrite <- H3; exact Hcols|].
    split; [exact Hfirst|].
    intros Hempty. rewrite Hempty in Hrows.
    now apply length_zero_iff_nil.
Qed.
End Generic.

(** The Euler stand-in has [odeint]'s output shape. *)
Section EulerShape.
Context {num : Type} {A : Arith num}.

Lemma axpy_length (h : num) (y f : list num) :
  length f = length y -> length (axpy h y f) = length y.
Proof.
  intros Hf. unfold axpy.
  rewrite length_map, length_combine, Hf. apply Nat.min_id.
Qed.

Lemma euler_steps_shape (f : rhs num) (ts : list num) :
  forall (y : list num) (t : num) (X : list (list num)),
    euler_steps f y t ts = Some X ->
    length X = length ts /\ Forall (fun row => length row = length y) X.
Proof.
  induction ts as [|t' ts IH]; intros y t X HX; simpl in HX.
  - inversion HX. split; [reflexivity | constructor].
  - destruct (f y t) as [fy|]; [|discriminate].
    destruct (Nat.eqb (length fy) (length y)) eqn:Hlen; [|discriminate].
    apply Nat.eqb_eq in Hlen.
    destruct (euler_steps f (axpy (sub t' t) y fy) t' ts) as [rest|] eqn:Hrest;
      [|discriminate].
    inversion HX; subst X; clear HX.
    destruct (IH _ _ _ Hrest) as [Hn Hall].
    rewrite axpy_length in Hall by exact Hlen.
    split.
    + simpl. now rewrite Hn.
    + constructor; [now apply axpy_length | exact Hall].
Qed.

Lemma euler_odeint_contract : odeint_contract (euler_odeint (num:=num)).
Proof.
  intros f y0 ts X HX. unfold euler_odeint in HX.
  destruct ts as [|t0 ts].
  - inversion HX. repeat split; [constructor | congruence].
  - destruct (euler_steps f y0 t0 ts) as [rest|] eqn:Hrest; [|discriminate].
    inversion HX; subst X; clear HX.
    destruct (euler_steps_shape _ _ _ _ _ Hrest) as [Hn Hall].
    repeat split.
    + simpl. now rewrite Hn.
    + constructor; [reflexivity | exact Hall].
Qed.
End EulerShape.

(** The theorem on a short grid ([dt = 0.002], [tmax = 0.01], five time
    points), every collaborator replaced by its exact stand-in. *)
Lemma integrate_lorenz_samples_solution_witness :
  odeint_contract (euler_odeint (num:=Q))
  /\ exists X : list (list Q),
       integrate_lorenz arange_Q euler_odeint None (2 # 1000) (1 # 100)
                        x0_default = Some X
       /\ length X = 5%nat
       /\ Forall (fun row => length row = 3%nat) X
       /\ hd_error X = Some [-8; 8; 27]%Q.
Proof.
  split; [exact euler_odeint_contract|].
  destruct (integrate_lorenz arange_Q euler_odeint None (2 # 1000) (1 # 100)
                             x0_default) as [X|] eqn:HX.
  - exists X. split; [reflexivity|].
    destruct (integrate_lorenz_samples_solution arange_Q euler_odeint
                euler_odeint_contract None (2 # 1000) (1 # 100) x0_default)
      as [_ Hshape].
    destruct (Hshape X HX) as (Hrows & _ & Hcols & Hfirst & _).
    repeat split.
    + rewrite Hrows. reflexivity.
    + apply Hcols. reflexivity.
    + apply Hfirst. discriminate.
  - exfalso. vm_compute in HX. discriminate.
Defined.

(** C10 as stated fails on inputs the function accepts.  With [tmax = 0]
    the grid [np.arange(0, 0, dt)] is empty and the trajectory has no row,
    so there is no first row to equal [x0]; and a two-dimensional [x0] on a
    one-point grid gives a trajectory of two columns, not three. *)
Lemma integrate_lorenz_first_row_counterexample :
  (integrate_lorenz arange_Q euler_odeint None (2 # 1000) 0 x0_default
     = Some []
   /\ hd_error (@nil (list Q)) <> Some x0_default)
  /\ (integrate_lorenz arange_Q euler_odeint None (2 # 1000) (1 # 1000)
        [1; 2] = Some [[1; 2]]
      /\ ~ Forall (fun row : list Q => length row = 3%nat) [[1; 2]]).
Proof.
  split; split.
  - reflexivity.
  - discriminate.
  - reflexivity.
  - intros H. inversion H as [|? ? Hrow _]. discriminate.
Qed.

(** The notebook's two time grids: 5000 points for the training trajectory
    ([tmax = 10]) and 7500 for the test trajectory ([tmax = 15]), both at
    [dt = 0.002]. *)
Example notebook_grid_sizes :
  Z.of_nat (length (arange_Q 0 tmax_default dt_default)) = 5000%Z
  /\ Z.of_nat (length (arange_Q 0 tmax_test dt_default)) = 7500%Z.
Proof. split; vm_compute; reflexivity. Qed.

(** In binary64 the quotients [tmax / dt] that size the two grids are the
    integers themselves, so the floating-point grids have the same sizes. *)
Example notebook_grid_sizes_float64 :
  PrimFloat.div tmax_default dt_default = 5000%float
  /\ PrimFloat.div tmax_test dt_default = 7500%float.
Proof. split; vm_compute; reflexivity. Qed.

(** The grid starts at 0, and its last point is below [tmax]. *)
Example notebook_grid_ends :
  hd_error (arange_Q 0 tmax_default dt_default) = Some 0
  /\ last (arange_Q 0 tmax_default dt_default) 0 = 4999 # 500.
Proof. split; vm_compute; reflexivity. Qed.

End IntegrateFacts.

(** ** The sparse optimizer at threshold zero *)

Module SparseOptimizerFacts.
Import Linear SparseOptimizer.

(** No coefficient is strictly below a threshold that is not positive. *)
Lemma below_nonpositive (threshold c : Q) :
  threshold <= 0 -> below threshold c = false.
Proof.
  intros Hthr. unfold below.
  apply negb_false_iff, Qle_bool_iff.
  apply Qle_trans with 0; [exact Hthr | apply Qabs_nonneg].
Qed.

Lemma zero_small_nonpositive (threshold : Q) (coef : vector) :
  threshold <= 0 -> zero_small threshold coef = coef.
Proof.
  intros Hthr. unfold zero_small.
  induction coef as [|c coef IH]; simpl; [reflexivity|].
  now rewrite below_nonpositive, IH.
Qed.

Lemma prune_nonpositive (threshold : Q) (active : list bool) :
  threshold <= 0 ->
  forall coef : vector,
    length coef = length active -> prune threshold active coef = active.
Proof.
  intros Hthr.
  induction active as [|a active IH]; intros [|c coef] Hlen;
    simpl in *; try discriminate; try reflexivity.
  rewrite below_nonpositive by exact Hthr.
  rewrite andb_true_r, IH by lia. reflexivity.
Qed.

Lemma same_pattern_refl (a : list bool) : same_pattern a a = true.
Proof.
  induction a as [|x a IH]; simpl; [reflexivity|].
  now rewrite eqb_reflx, IH.
Qed.

Lemma same_pattern_eq (a b : list bool) : same_pattern a b = true -> a = b.
Proof.
  revert b. induction a as [|x a IH]; intros [|y b] H; simpl in H;
    try discriminate; [reflexivity|].
  apply andb_true_iff in H. destruct H as [Hxy Hab].
  apply eqb_prop in Hxy. f_equal; [exact Hxy | now apply IH].
Qed.

(** With every feature active the restricted problem is the whole one. *)
Lemma restrict_all_active (Theta : matrix) :
  restrict (map (fun _ => true) Theta) Theta = Theta.
Proof.
  induction Theta as [|col Theta IH]; simpl; [reflexivity|].
  now rewrite IH.
Qed.

Lemma scatter_all_active (Theta : matrix) :
  forall c : vector,
    length c = length Theta -> scatter (map (fun _ => true) Theta) c = c.
Proof.
  induction Theta as [|col Theta IH]; intros [|ck c] Hlen;
    simpl in *; try discriminate; [reflexivity|].
  rewrite IH by lia. reflexivity.
Qed.

Section Reduction.
Variable ridge_solve : Q -> matrix -> vector -> option vector.

(** The backend returns one coefficient per column of the problem. *)
Hypothesis ridge_solve_length :
  forall (alpha : Q) (M : matrix) (y c : vector),
    ridge_solve alpha M y = Some c -> length c = length M.

(** One round suffices: nothing is zeroed, so the active set is at its
    fixed point after the first solve. *)
Lemma solve_column_zero_threshold (Theta : matrix) (y : vector)
    (max_iter : nat) (ridge_alpha : Q) :
  solve_column ridge_solve Theta y 0 max_iter ridge_alpha =
    match ridge_solve ridge_alpha Theta y with
    | Some c => Ok c
    | None => Err SingularSystem
    end.
Proof.
  unfold solve_column.
  destruct (Nat.pred max_iter) as [|budget]; cbn [iterate];
    rewrite restrict_all_active;
    (destruct (ridge_solve ridge_alpha Theta y) as [c|] eqn:Hsolve;
     [|reflexivity]);
    pose proof (ridge_solve_length _ _ _ _ Hsolve) as Hlen;
    rewrite scatter_all_active by exact Hlen;
    (rewrite prune_nonpositive
       by (try apply Qle_refl; now rewrite length_map));
    rewrite same_pattern_refl;
    now rewrite zero_small_nonpositive by apply Qle_refl.
Qed.

(** C1. With [threshold = 0] and [ridge_alpha = 0], [solve] returns
    exactly the ordinary least-squares solution of [Theta xi = Xdot]: the
    coefficient matrix of a direct, unthresholded and unregularized solve,
    for every target column and every [max_iter] (and it fails exactly when
    that solve fails). *)
Theorem solve_zero_threshold_is_least_squares
    (Theta Xdot : matrix) (max_iter : nat) :
  solve ridge_solve Theta Xdot 0 max_iter 0 =
    direct_least_squares ridge_solve Theta Xdot.
Proof.
  unfold solve, direct_least_squares.
  f_equal. apply map_ext. intros y.
  apply solve_column_zero_threshold.
Qed.
End Reduction.

(** The exact backend returns one coefficient per column. *)
Lemma gauss_length (k : nat) :
  forall (rows : list (list Q)) (xs : vector),
    gauss k rows = Some xs -> length xs = k.
Proof.
  induction k as [|k IH]; intros rows xs H; simpl in H.
  - now inversion H.
  - destruct (find_pivot rows) as [[[|a p] others]|]; try discriminate.
    destruct (gauss k _) as [ys|] eqn:Hys; [|discriminate].
    inversion H; subst xs. simpl. f_equal. exact (IH _ _ Hys).
Qed.

Lemma exact_ridge_length (alpha : Q) (M : matrix) (y c : vector) :
  exact_ridge alpha M y = Some c -> length c = length M.
Proof. unfold exact_ridge. apply gauss_length. Qed.

Lemma solve_zero_threshold_is_least_squares_witness :
  (forall (alpha : Q) (M : matrix) (y c : vector),
      exact_ridge alpha M y = Some c -> length c = length M)
  /\ solve exact_ridge Theta_example Xdot_example 0 10 0 =
       direct_least_squares exact_ridge Theta_example Xdot_example
  /\ direct_least_squares exact_ridge Theta_example Xdot_example =
       Ok [[1; 2; 0]; [0; 0; 1]; [9 # 200; 469 # 200; -9 # 40]].
Proof.
  split; [exact exact_ridge_length|]. split.
  - exact (solve_zero_threshold_is_least_squares exact_ridge
             exact_ridge_length Theta_example Xdot_example 10).
  - vm_compute. reflexivity.
Defined.

(** The least-squares coefficients above satisfy the normal equations
    [Theta^T Theta xi = Theta^T y] of their target. *)
Example exact_ridge_normal_equations :
  let xi := [9 # 200; 469 # 200; -9 # 40] in
  let y := [1 # 10; 2; 4; 5] in
  exact_ridge 0 Theta_example y = Some xi
  /\ forallb (fun ci =>
        Qeq_bool (dot (map (fun cj => dot ci cj) Theta_example) xi) (dot ci y))
       Theta_example = true.
Proof. vm_compute. split; reflexivity. Qed.

(** A positive threshold prunes: on the third target the constant and the
    quadratic term fall below [1/2], and the re-solve on [x] alone gives
    [25/14]. *)
Example solve_prunes :
  solve exact_ridge Theta_example Xdot_example (1 # 2) 10 0 =
    Ok [[1; 2; 0]; [0; 0; 1]; [0; 25 # 14; 0]].
Proof. vm_compute. reflexivity. Qed.

End SparseOptimizerFacts.

(** ** [lorenz]: domain and dynamics *)

Module DynamicsFacts.
Import Numbers Notebook Linear Dynamics.

(** X1. [lorenz] raises [IndexError] exactly on states with fewer than three
    entries; on a longer state only the first three entries are read. *)
Theorem lorenz_reads_three_entries {num : Type} {A : Arith num}
    (x : list num) (t sigma' rho' beta' : num) :
  (lorenz x t sigma' rho' beta' = None <-> (length x < 3)%nat)
  /\ ((3 <= length x)%nat ->
      lorenz x t sigma' rho' beta' = lorenz (firstn 3 x) t sigma' rho' beta').
Proof.
  split.
  - symmetry. apply LorenzFacts.lorenz_index_error.
  - intros Hlen.
    destruct x as [|a [|b [|c rest]]]; simpl in Hlen; try lia.
    reflexivity.
Qed.

(** [lorenz] on a rational state, component by component. *)
Lemma lorenz_Q (x y z t sigma' rho' beta' : Q) :
  lorenz [x; y; z] t sigma' rho' beta' =
    Some [sigma' * (y - x); x * (rho' - z) - y; x * y - beta' * z].
Proof. reflexivity. Qed.

(** X3. The vector field commutes with the reflection through the [z] axis:
    at [(-x, -y, z)] the first two components change sign and the third
    does not. *)
Theorem lorenz_reflection_symmetry (x y z t sigma' rho' beta' : Q) :
  exists d d' : list Q,
    lorenz [x; y; z] t sigma' rho' beta' = Some d
    /\ lorenz (reflect [x; y; z]) t sigma' rho' beta' = Some d'
    /\ Forall2 Qeq d' (reflect d).
Proof.
  eexists. eexists. split; [apply lorenz_Q|].
  split; [apply lorenz_Q|].
  cbn [reflect]. repeat constructor; ring.
Qed.

(** X4. With [sigma <> 0], the states where [lorenz] returns the zero vector
    are exactly those with [y = x], [x^2 = beta z] and, besides, [x = 0] or
    [z = rho - 1]. *)
Theorem lorenz_equilibria (x y z t sigma' rho' beta' : Q) :
  ~ sigma' == 0 ->
  (exists d : list Q,
      lorenz [x; y; z] t sigma' rho' beta' = Some d
      /\ Forall (fun v => v == 0) d)
  <-> (y == x /\ x * x == beta' * z /\ (x == 0 \/ z == rho' - 1)).
Proof.
  intros Hsigma. rewrite lorenz_Q. split.
  - intros (d & Hd & Hzero). inversion Hd; subst d; clear Hd.
    inversion Hzero as [|? ? Hdx Hrest]; subst.
    inversion Hrest as [|? ? Hdy Hrest']; subst.
    inversion Hrest' as [|? ? Hdz _]; subst.
    assert (Hyx : y == x).
    { apply Qmult_integral in Hdx. destruct Hdx as [H0 | H0];
        [contradiction | lra]. }
    split; [exact Hyx|]. split.
    + rewrite Hyx in Hdz. lra.
    + assert (Hprod : x * (rho' - z - 1) == 0).
      { rewrite Hyx in Hdy. rewrite <- Hdy. ring. }
      apply Qmult_integral in Hprod. destruct Hprod as [H0 | H0];
        [left; exact H0 | right; lra].
  - intros (Hyx & Hxx & Hcase). eexists. split; [reflexivity|].
    repeat constructor.
    + rewrite Hyx. ring.
    + rewrite Hyx. destruct Hcase as [H0 | H0]; rewrite H0; ring.
    + rewrite Hyx, Hxx. ring.
Qed.

(** The theorem at [sigma = 10], [rho = 3], [beta = 2]: the state
    [(2, 2, 2)] is an equilibrium. *)
Lemma lorenz_equilibria_witness :
  ~ 10 == 0
  /\ exists d : list Q,
       lorenz [2; 2; 2] 0 10 3 2 = Some d /\ Forall (fun v => v == 0) d.
Proof.
  assert (Hsigma : ~ 10 == 0) by discriminate.
  split; [exact Hsigma|].
  apply (proj2 (lorenz_equilibria 2 2 2 0 10 3 2 Hsigma)).
  split; [reflexivity|]. split; [reflexivity|]. right. reflexivity.
Defined.

(** Along the vector field the quadratic
    [V = rho x^2 + sigma y^2 + sigma (z - 2 rho)^2] changes at the rate
    [-2 sigma (rho x^2 + y^2 + beta (z - rho)^2 - beta rho^2)]. *)
Lemma lyapunov_rate (x y z t sigma' rho' beta' : Q) (d : list Q) :
  lorenz [x; y; z] t sigma' rho' beta' = Some d ->
  dot (lyapunov_gradient sigma' rho' x y z) d ==
    - (2) * sigma' * (rho' * (x * x) + y * y
                      + beta' * ((z - rho') * (z - rho'))
                      - beta' * (rho' * rho')).
Proof.
  rewrite lorenz_Q. intros Hd. inversion Hd; subst d; clear Hd.
  unfold lyapunov_gradient, dot. cbn [combine map fold_right fst snd].
  ring.
Qed.

(** X5. For [sigma > 0], at every state strictly outside the ellipsoid
    [rho x^2 + y^2 + beta (z - rho)^2 <= beta rho^2] the vector returned by
    [lorenz] has a negative inner product with the gradient of
    [V = rho x^2 + sigma y^2 + sigma (z - 2 rho)^2]: the rate of change of
    [V] along the vector field is negative there. *)
Theorem lorenz_points_inward (x y z t sigma' rho' beta' : Q) (d : list Q) :
  0 < sigma' ->
  outside_ellipsoid rho' beta' x y z ->
  lorenz [x; y; z] t sigma' rho' beta' = Some d ->
  dot (lyapunov_gradient sigma' rho' x y z) d < 0.
Proof.
  intros Hsigma Hout Hd. rewrite (lyapunov_rate _ _ _ _ _ _ _ _ Hd).
  unfold outside_ellipsoid in Hout.
  set (E := rho' * (x * x) + y * y + beta' * ((z - rho') * (z - rho'))
            - beta' * (rho' * rho')).
  assert (HE : 0 < E) by (unfold E; lra).
  assert (Hpos : 0 < sigma' * E) by (apply Qmult_lt_0_compat; assumption).
  setoid_replace (- (2) * sigma' * E) with (- (2 * (sigma' * E))) by ring.
  lra.
Qed.

(** The theorem at the notebook's parameters and the initial state
    [(8, 7, 15)] of the test trajectory. *)
Lemma lorenz_points_inward_witness :
  0 < 10
  /\ outside_ellipsoid 28 (8 # 3) 8 7 15
  /\ exists d : list Q,
       lorenz [8; 7; 15] 0 10 28 (8 # 3) = Some d
       /\ dot (lyapunov_gradient 10 28 8 7 15) d < 0.
Proof.
  assert (Hsigma : 0 < 10) by reflexivity.
  assert (Hout : outside_ellipsoid 28 (8 # 3) 8 7 15) by reflexivity.
  split; [exact Hsigma|]. split; [exact Hout|].
  eexists. split; [reflexivity|].
  exact (lorenz_points_inward 8 7 15 0 10 28 (8 # 3) _ Hsigma Hout eq_refl).
Defined.

End DynamicsFacts.

(** ** The test grid, the noisy data, the colour limits, the subplot codes *)

Module CellsFacts.
Import Numbers Notebook Reference Cells.

Section GridFacts.
Context {num : Type} {A : Arith num}.
Variable arange : num -> num -> num -> list num.
Variable odeint : rhs num -> list num -> list num -> option (list (list num)).
Hypothesis odeint_shape : odeint_contract odeint.

(** X6. The test trajectory [X_test] has one row per point of [t_test] and
    three columns: [integrate_lorenz] is called with the default [dt], which
    is the global [dt] that [t_test] is built with. *)
Theorem X_test_matches_t_test (M : list (list num)) :
  X_test arange odeint = Some M ->
  length M = length (t_test arange)
  /\ Forall (fun row => length row = 3%nat) M.
Proof.
  unfold X_test. rewrite IntegrateFacts.integrate_lorenz_unfold.
  intros HM. destruct (odeint_shape _ _ _ _ HM) as (Hrows & Hcols & _).
  split; [exact Hrows | exact Hcols].
Qed.
End GridFacts.

(** The theorem in binary64, with the Euler stand-in: 7500 rows. *)
Lemma X_test_matches_t_test_witness :
  odeint_contract (euler_odeint (num:=float))
  /\ exists M : list (list float),
       X_test arange_float64 euler_odeint = Some M
       /\ length M = length (t_test arange_float64)
       /\ Forall (fun row => length row = 3%nat) M
       /\ Z.of_nat (length M) = 7500%Z.
Proof.
  split; [exact IntegrateFacts.euler_odeint_contract|].
  destruct (X_test arange_float64 euler_odeint) as [M|] eqn:HM.
  - exists M. split; [reflexivity|].
    destruct (X_test_matches_t_test arange_float64 euler_odeint
                IntegrateFacts.euler_odeint_contract M HM) as [Hrows Hcols].
    split; [exact Hrows|]. split; [exact Hcols|].
    rewrite Hrows. vm_compute. reflexivity.
  - exfalso. vm_compute in HM. discriminate.
Defined.

(** *** Noise *)

(** X7. At noise level 0 the training data are the clean trajectory, entry by
    entry, whatever the random draw. *)
Theorem noise_level_zero_is_clean (X R : array2) :
  same_shape X R -> Forall2 (Forall2 Qeq) (noisy X 0 R) X.
Proof.
  unfold noisy, add_arrays, scale, same_shape.
  induction 1 as [|row row' X R Hrow _ IH]; simpl; constructor.
  - clear IH. revert row' Hrow.
    induction row as [|a row IHrow]; intros [|b row'] Hrow;
      simpl in *; try discriminate; constructor.
    + ring.
    + apply IHrow. lia.
  - exact IH.
Qed.

Lemma noise_level_zero_is_clean_witness :
  same_shape [[1; 2]; [3; 4]] [[5; 6]; [7; 8]]
  /\ Forall2 (Forall2 Qeq)
       (noisy [[1; 2]; [3; 4]] 0 [[5; 6]; [7; 8]]) [[1; 2]; [3; 4]].
Proof.
  assert (Hshape : same_shape [[1; 2]; [3; 4]] [[5; 6]; [7; 8]])
    by (repeat constructor).
  split; [exact Hshape|].
  exact (noise_level_zero_is_clean _ _ Hshape).
Defined.

End CellsFacts.

(** ** The colour limits and the subplot codes *)

Module PlotFacts.
Import Numbers Notebook Cells.

(** *** [clim] *)

Lemma Qmax2_cases (a b : Q) :
  (Qmax2 a b = a \/ Qmax2 a b = b) /\ a <= Qmax2 a b /\ b <= Qmax2 a b.
Proof.
  unfold Qmax2. destruct (Qle_bool a b) eqn:Hab.
  - apply Qle_bool_iff in Hab. repeat split; auto; apply Qle_refl.
  - assert (Hba : b <= a).
    { destruct (Qlt_le_dec b a) as [H | H]; [now apply Qlt_le_weak|].
      apply Qle_bool_iff in H. congruence. }
    repeat split; auto; apply Qle_refl.
Qed.

(** The running maximum is an entry, and no entry exceeds it. *)
Lemma fold_max_spec (es : list Q) :
  forall e : Q,
    In (fold_left Qmax2 es e) (e :: es)
    /\ Forall (fun v => v <= fold_left Qmax2 es e) (e :: es).
Proof.
  induction es as [|a es IH]; intros e; simpl.
  - split; [now left | repeat constructor; apply Qle_refl].
  - destruct (IH (Qmax2 e a)) as [Hin Hall].
    destruct (Qmax2_cases e a) as (Hcase & Hle_e & Hle_a).
    inversion Hall as [|? ? Hm Hes]; subst.
    split.
    + destruct Hin as [Hin | Hin].
      * rewrite <- Hin. destruct Hcase as [-> | ->]; [now left | now right; left].
      * now right; right.
    + constructor; [eapply Qle_trans; eassumption|].
      constructor; [eapply Qle_trans; eassumption | exact Hes].
Qed.

Lemma amax_spec (a : array2) (m : Q) :
  amax a = Some m ->
  In m (concat a) /\ forall e : Q, In e (concat a) -> e <= m.
Proof.
  unfold amax. destruct (concat a) as [|e es]; [discriminate|].
  intros H. inversion H; subst m; clear H.
  destruct (fold_max_spec es e) as [Hin Hall].
  split; [exact Hin|]. intros v Hv. rewrite Forall_forall in Hall. now apply Hall.
Qed.

(** Joining two arrays with as many rows keeps every entry of both. *)
Lemma entries_joined (a r : array2) :
  length a = length r ->
  forall e : Q,
    In e (concat (map (fun rows => fst rows ++ snd rows) (combine a r)))
    <-> In e (concat a) \/ In e (concat r).
Proof.
  revert r. induction a as [|row a IH]; intros [|row' r] Hlen e;
    simpl in *; try discriminate.
  - tauto.
  - rewrite !in_app_iff, (IH r) by lia. tauto.
Qed.

Lemma length_joined (a r : array2) :
  length a = length r ->
  length (map (fun rows => fst rows ++ snd rows) (combine a r)) = length a.
Proof.
  intros H. rewrite length_map, length_combine, H. apply Nat.min_id.
Qed.

Lemma hstack_cons (a b : array2) (rest : list array2) :
  hstack (a :: b :: rest) =
    match hstack (b :: rest) with
    | Some r =>
        if Nat.eqb (length a) (length r)
        then Some (map (fun rows => fst rows ++ snd rows) (combine a r))
        else None
    | None => None
    end.
Proof. reflexivity. Qed.

(** [hstack] succeeds on arrays with equal row counts, and its result holds
    exactly the entries of the arrays. *)
Lemma hstack_spec (cs : list array2) :
  forall h : array2,
    hstack cs = Some h ->
    Forall (fun c => length c = length h) cs
    /\ forall e : Q,
         In e (concat h) <-> exists c, In c cs /\ In e (concat c).
Proof.
  induction cs as [|a cs IH]; intros h Hh; [discriminate|].
  destruct cs as [|b cs].
  - simpl in Hh. inversion Hh; subst h. split; [repeat constructor|].
    intros e. split.
    + intros He. exists a. split; [now left | exact He].
    + intros (c & [Hc | []] & He). now subst c.
  - rewrite hstack_cons in Hh.
    destruct (hstack (b :: cs)) as [r|] eqn:Hr; [|discriminate].
    destruct (Nat.eqb (length a) (length r)) eqn:Hlen; [|discriminate].
    apply Nat.eqb_eq in Hlen. inversion Hh; subst h; clear Hh.
    destruct (IH r eq_refl) as [Hall Hentries].
    split.
    + rewrite length_joined by exact Hlen. constructor; [reflexivity|].
      eapply Forall_impl; [|exact Hall]. simpl. intros c Hc. congruence.
    + intros e. rewrite entries_joined by exact Hlen. rewrite Hentries.
      split.
      * intros [He | (c & Hc & He)].
        -- exists a. split; [now left | exact He].
        -- exists c. split; [now right | exact He].
      * intros (c & [Hc | Hc] & He).
        -- subst c. now left.
        -- right. exists c. now split.
Qed.

Lemma hstack_total (cs : list array2) (n : nat) :
  cs <> [] -> Forall (fun c => length c = n) cs ->
  exists h : array2, hstack cs = Some h /\ length h = n.
Proof.
  induction cs as [|a cs IH]; intros Hne Hall; [congruence|].
  inversion Hall as [|? ? Ha Hcs]; subst.
  destruct cs as [|b cs].
  - exists a. split; reflexivity.
  - destruct IH as (r & Hr & Hlen); [discriminate | exact Hcs |].
    rewrite hstack_cons, Hr.
    replace (Nat.eqb (length a) (length r)) with true
      by (symmetry; apply Nat.eqb_eq; congruence).
    eexists. split; [reflexivity|].
    rewrite length_joined by congruence. reflexivity.
Qed.

(** X8. The colour limits are symmetric about zero, [[-M, M]], every entry of
    every coefficient array lies between them, and [M] is the magnitude of
    one of the entries. *)
Theorem clim_bounds_every_coefficient (coefficients : list array2)
    (cl : list Q) :
  clim coefficients = Some cl ->
  exists M : Q,
    cl = [M * -1; M * 1]
    /\ (forall c row e, In c coefficients -> In row c -> In e row ->
                        M * -1 <= e /\ e <= M * 1)
    /\ (exists c row e, In c coefficients /\ In row c /\ In e row
                        /\ Qabs e = M).
Proof.
  unfold clim. intros Hcl.
  destruct (hstack coefficients) as [h|] eqn:Hh; [|discriminate].
  destruct (amax (map (map Qabs) h)) as [m|] eqn:Hm; [|discriminate].
  inversion Hcl; subst cl; clear Hcl.
  destruct (hstack_spec _ _ Hh) as [_ Hentries].
  destruct (amax_spec _ _ Hm) as [Hin Hmax].
  rewrite <- concat_map in Hin, Hmax.
  exists m. split; [reflexivity|]. split.
  - intros c row e Hc Hrow He.
    assert (Hh_e : In e (concat h)).
    { apply Hentries. exists c. split; [exact Hc|].
      apply in_concat. exists row. now split. }
    assert (Habs : Qabs e <= m) by (apply Hmax; now apply in_map).
    apply Qabs_Qle_condition in Habs. destruct Habs as [Hlo Hhi].
    split; lra.
  - apply in_map_iff in Hin. destruct Hin as (e & Habs & He).
    apply Hentries in He. destruct He as (c & Hc & He).
    apply in_concat in He. destruct He as (row & Hrow & He).
    exists c, row, e. repeat split; assumption.
Qed.

Lemma clim_bounds_every_coefficient_witness :
  clim [[[1; -3]; [2; 0]]; [[1 # 2; 5]; [-7; 1]]] = Some [7 * -1; 7 * 1]
  /\ exists M : Q,
       [7 * -1; 7 * 1] = [M * -1; M * 1]
       /\ (forall c row e,
              In c [[[1; -3]; [2; 0]]; [[1 # 2; 5]; [-7; 1]]] ->
              In row c -> In e row -> M * -1 <= e /\ e <= M * 1)
       /\ (exists c row e,
              In c [[[1; -3]; [2; 0]]; [[1 # 2; 5]; [-7; 1]]]
              /\ In row c /\ In e row /\ Qabs e = M).
Proof.
  assert (H : clim [[[1; -3]; [2; 0]]; [[1 # 2; 5]; [-7; 1]]]
              = Some [7 * -1; 7 * 1]) by reflexivity.
  split; [exact H|].
  exact (clim_bounds_every_coefficient _ _ H).
Defined.

(** X9. [clim] raises exactly when there is no coefficient array, when the
    arrays do not all have the same number of rows, or when they hold no
    entry at all. *)
Theorem clim_succeeds_iff (coefficients : list array2) :
  clim coefficients <> None
  <-> coefficients <> []
      /\ (exists n, Forall (fun c => length c = n) coefficients)
      /\ (exists c row e, In c coefficients /\ In row c /\ In e (row : list Q)).
Proof.
  unfold clim. split.
  - intros Hok.
    destruct (hstack coefficients) as [h|] eqn:Hh; [|congruence].
    destruct (hstack_spec _ _ Hh) as [Hall Hentries].
    split; [intros ->; discriminate|].
    split; [now exists (length h)|].
    destruct (amax (map (map Qabs) h)) as [m|] eqn:Hm; [|congruence].
    destruct (amax_spec _ _ Hm) as [Hin _].
    rewrite <- concat_map in Hin.
    apply in_map_iff in Hin. destruct Hin as (e & _ & He).
    apply Hentries in He. destruct He as (c & Hc & He).
    apply in_concat in He. destruct He as (row & Hrow & He).
    now exists c, row, e.
  - intros (Hne & (n & Hall) & (c & row & e & Hc & Hrow & He)).
    destruct (hstack_total _ _ Hne Hall) as (h & Hh & _). rewrite Hh.
    destruct (hstack_spec _ _ Hh) as [_ Hentries].
    assert (Hin : In (Qabs e) (concat (map (map Qabs) h))).
    { rewrite <- concat_map. apply in_map. apply Hentries.
      exists c. split; [exact Hc|]. apply in_concat. exists row. now split. }
    unfold amax. destruct (concat (map (map Qabs) h)); [destruct Hin|].
    discriminate.
Qed.

End PlotFacts.

(** ** The subplot codes *)

Module SubplotFacts.
Import Cells.

Lemma string_of_uapp (d d' : Decimal.uint) :
  DecimalString.NilEmpty.string_of_uint (uapp d d') =
    String.append (DecimalString.NilEmpty.string_of_uint d)
                  (DecimalString.NilEmpty.string_of_uint d').
Proof. induction d; simpl; now rewrite ?IHd. Qed.

Lemma of_uint_acc_uapp (d d' : Decimal.uint) :
  forall acc : nat,
    Nat.of_uint_acc (uapp d d') acc =
      Nat.of_uint_acc d' (Nat.of_uint_acc d acc).
Proof. induction d; intros acc; simpl; now rewrite ?IHd. Qed.

(** The value of a digit string read after the digits that make [acc]. *)
Lemma of_uint_acc_value (d : Decimal.uint) (acc : nat) :
  Nat.of_uint_acc d acc =
    (Nat.of_uint d + acc * 10 ^ DecimalNat.Unsigned.usize d)%nat.
Proof.
  now rewrite DecimalNat.Unsigned.of_uint_acc_spec,
              DecimalNat.Unsigned.of_uint_alt.
Qed.

Lemma to_uint_nonnil (n : nat) : Nat.to_uint n <> Decimal.Nil.
Proof.
  rewrite <- (DecimalNat.Unsigned.of_to n) at 1.
  rewrite DecimalNat.Unsigned.to_of. apply DecimalFacts.unorm_nonnil.
Qed.

Lemma digits_positive (n : nat) : (1 <= digits n)%nat.
Proof.
  unfold digits. pose proof (to_uint_nonnil n) as H.
  destruct (Nat.to_uint n); simpl; try lia. congruence.
Qed.

(** A digit string of [k] digits is below [10^k]. *)
Lemma of_uint_bound (d : Decimal.uint) :
  (Nat.of_uint d < 10 ^ DecimalNat.Unsigned.usize d)%nat.
Proof.
  induction d; simpl DecimalNat.Unsigned.usize;
    [cbv; lia | ..];
    unfold Nat.of_uint; cbn [Nat.of_uint_acc]; rewrite of_uint_acc_value;
    rewrite Nat.pow_succ_r', Nat.tail_mul_spec; lia.
Qed.

Lemma digits_two (n : nat) : (10 <= n)%nat -> (2 <= digits n)%nat.
Proof.
  intros Hn. unfold digits.
  pose proof (of_uint_bound (Nat.to_uint n)) as Hb.
  rewrite DecimalNat.Unsigned.of_to in Hb.
  destruct (DecimalNat.Unsigned.usize (Nat.to_uint n)) as [|[|k]];
    simpl in Hb; lia.
Qed.

(** The code as a number: the digit 1, then the digits of
    [len(noise) + 1], then the digits of [k]. *)
Lemma subplot_code_value (len_noise k : nat) :
  subplot_code len_noise k =
    Some ((10 ^ digits (len_noise + 1) + (len_noise + 1)) * 10 ^ digits k
          + k)%nat.
Proof.
  unfold subplot_code, py_int, py_str, digits.
  set (da := Nat.to_uint (len_noise + 1)). set (db := Nat.to_uint k).
  rewrite <- string_of_uapp.
  cbn [String.append DecimalString.NilZero.uint_of_string
       DecimalString.NilEmpty.uint_of_string].
  rewrite DecimalString.NilEmpty.usu.
  cbn [DecimalString.uint_of_char option_map]. f_equal.
  unfold Nat.of_uint. cbn [Nat.of_uint_acc]. rewrite Nat.tail_mul_spec.
  rewrite of_uint_acc_uapp, !of_uint_acc_value.
  subst da db. rewrite !DecimalNat.Unsigned.of_to. lia.
Qed.

(** X10. With at most eight noise levels the codes of the figure are the
    three-digit numbers [1 c 1], ..., [1 c c] for [c = len(noise) + 1]
    columns: one row, [c] columns, the positions 1 to [c] in order. *)
Theorem subplot_codes_fill_the_row (len_noise : nat) :
  (len_noise <= 8)%nat ->
  subplot_codes len_noise =
    map (fun k => Some (100 + 10 * (len_noise + 1) + k)%nat)
        (seq 1 (len_noise + 1)).
Proof.
  intros Hlen.
  do 9 (destruct len_noise as [|len_noise]; [vm_compute; reflexivity|]).
  lia.
Qed.

(** The notebook's six noise levels: the codes 171 to 177. *)
Lemma subplot_codes_fill_the_row_witness :
  (6 <= 8)%nat
  /\ subplot_codes 6 =
       [Some 171; Some 172; Some 173; Some 174; Some 175; Some 176;
        Some 177]%nat.
Proof.
  assert (H : (6 <= 8)%nat) by lia.
  split; [exact H|].
  exact (subplot_codes_fill_the_row 6 H).
Defined.

(** X11. With nine noise levels or more no code is a three-digit number: every
    code of the figure is at least 1000. *)
Theorem subplot_codes_overflow (len_noise : nat) :
  (9 <= len_noise)%nat ->
  Forall (fun code => exists c : nat, code = Some c /\ (1000 <= c)%nat)
         (subplot_codes len_noise).
Proof.
  intros Hlen.
  assert (Hcode : forall k, exists c : nat,
             subplot_code len_noise k = Some c /\ (1000 <= c)%nat).
  { intros k. rewrite subplot_code_value. eexists. split; [reflexivity|].
    assert (Ha : (10 ^ 2 <= 10 ^ digits (len_noise + 1))%nat)
      by (apply Nat.pow_le_mono_r; [lia | apply digits_two; lia]).
    assert (Hb : (10 ^ 1 <= 10 ^ digits k)%nat)
      by (apply Nat.pow_le_mono_r; [lia | apply digits_positive]).
    simpl Nat.pow in Ha, Hb. nia. }
  unfold subplot_codes. constructor; [apply Hcode|].
  apply Forall_forall. intros code Hin.
  apply in_map_iff in Hin. destruct Hin as (i & <- & _). apply Hcode.
Qed.

Lemma subplot_codes_overflow_witness :
  (9 <= 9)%nat
  /\ Forall (fun code => exists c : nat, code = Some c /\ (1000 <= c)%nat)
            (subplot_codes 9)
  /\ hd_error (subplot_codes 9) = Some (Some 1101%nat).
Proof.
  assert (H : (9 <= 9)%nat) by lia.
  split; [exact H|]. split; [exact (subplot_codes_overflow 9 H)|].
  reflexivity.
Defined.

End SubplotFacts.
